(** * The account ledger of the DV ATM system

    Shallow embedding of [app/services/account_service.py] (class
    [AccountService]), of the pydantic models it builds
    ([app/schemas/account.py], [app/schemas/transaction.py]), of the settings
    it reads ([app/config/settings.py]), of the routes of
    [app/routers/accounts.py] and of the health route
    ([app/routers/health.py]).

    Modelling conventions.
    - One call of a method is one atomic transition: the functions below take
      the service object and return the outcome together with the service
      object after the call.  Lock objects carry no state of their own
      here; what is kept of the lock table is which keys it holds.
    - [uuid.uuid4()] and [datetime.now()] are readings of the environment:
      the identifier and the clock value a call obtains are arguments of
      the call.
    - Python's [float] amounts are idealised as exact rationals ([Q]):
      rounding, infinities and NaN are not modelled.
    - Raising is returning [Raise e]; logging is dropped. *)

From Stdlib Require Import ZArith QArith Qabs Lqa.
From stdpp Require Import gmap strings list fin_maps pretty.

Local Open Scope Z_scope.
#[local] Set Warnings "-clear-no-such-hyp".

(** ** Numbers *)

(** Strict comparison on rationals, the companion of [Qle_bool]. *)
Definition Qlt_bool (x y : Q) : bool :=
  (Qnum x * QDen y <? Qnum y * QDen x)%Z.

(** ** Settings ([app/config/settings.py]) *)

Record Settings := mkSettings {
  MAX_ACCOUNTS : Z;
  MIN_BALANCE : Q;
  MAX_TRANSACTION_AMOUNT : Q
}.

(** The values taken when the environment variables are not set. *)
Definition default_settings : Settings :=
  {| MAX_ACCOUNTS := 1000; MIN_BALANCE := 0%Q; MAX_TRANSACTION_AMOUNT := 10000%Q |}.

(** ** Exceptions and outcomes *)

Definition datetime := Z.

Inductive exception :=
| HTTPException (status_code : Z) (detail : string)
| ValidationError (model : string) (field : string).

Inductive result (A : Type) :=
| Ok (a : A)
| Raise (e : exception).
Arguments Ok {A} a.
Arguments Raise {A} e.

Definition HTTP_400_BAD_REQUEST := 400.
Definition HTTP_404_NOT_FOUND := 404.
Definition HTTP_500_INTERNAL_SERVER_ERROR := 500.
Definition HTTP_507_INSUFFICIENT_STORAGE := 507.

(** The failure kinds of the specification, read off the exceptions the
    code raises: 404 is [NotFound], 507 is [CapacityExceeded], 400 (the
    only 400 of the service is "Insufficient funds") is [InsufficientFunds],
    and a pydantic validation error, raised by a field constraint on an
    amount, is [InvalidAmount].  Anything else is an internal error. *)
Inductive failure := NotFound | CapacityExceeded | InvalidAmount | InsufficientFunds | InternalError.

Definition failure_of (e : exception) : failure :=
  match e with
  | ValidationError _ _ => InvalidAmount
  | HTTPException c _ =>
      if c =? HTTP_404_NOT_FOUND then NotFound
      else if c =? HTTP_507_INSUFFICIENT_STORAGE then CapacityExceeded
      else if c =? HTTP_400_BAD_REQUEST then InsufficientFunds
      else InternalError
  end.

Definition fails_with {A} (r : result A) (f : failure) : Prop :=
  match r with
  | Ok _ => False
  | Raise e => failure_of e = f
  end.

Definition succeeds {A} (r : result A) : Prop :=
  match r with Ok _ => True | Raise _ => False end.

(** ** Schemas ([app/schemas]) *)

Record Account := mkAccount {
  account_number : string;
  balance : Q;
  created_at : datetime;
  last_updated : datetime
}.

(** [Account(account_number=.., balance=.., created_at=.., last_updated=..)]:
    pydantic checks [balance: float = Field(ge=0)] of [AccountBase] when the
    object is built. *)
Definition Account_init (num : string) (bal : Q) (c u : datetime) : result Account :=
  if Qle_bool 0 bal
  then Ok {| account_number := num; balance := bal; created_at := c; last_updated := u |}
  else Raise (ValidationError "Account" "balance").

(** Attribute assignment on a model is not validated (no
    [validate_assignment] in the models). *)
Definition set_balance (a : Account) (b : Q) : Account :=
  {| account_number := account_number a; balance := b;
     created_at := created_at a; last_updated := last_updated a |}.

Definition set_last_updated (a : Account) (t : datetime) : Account :=
  {| account_number := account_number a; balance := balance a;
     created_at := created_at a; last_updated := t |}.

Module AccountCreateResponse.
Record t := mk { account_number : string; balance : Q; message : string }.
End AccountCreateResponse.

Module BalanceResponse.
Record t := mk { account_number : string; balance : Q }.
End BalanceResponse.

Module TransactionResponse.
Record t := mk {
  account_number : string;
  new_balance : Q;
  transaction_amount : Q;
  transaction_type : string;
  timestamp : datetime
}.
End TransactionResponse.

(** [AccountCreate]: [initial_balance] with [ge=0] and
  [le=settings.MAX_TRANSACTION_AMOUNT]. *)
Module AccountCreate.
Record t := mk { initial_balance : Q }.
Definition init (settings : Settings) (b : Q) : result t :=
  if Qle_bool 0 b && Qle_bool b (MAX_TRANSACTION_AMOUNT settings)
  then Ok (mk b)
  else Raise (ValidationError "AccountCreate" "initial_balance").
End AccountCreate.

(** [TransactionRequest]: [amount] with [gt=0] and
  [le=settings.MAX_TRANSACTION_AMOUNT]. *)
Module TransactionRequest.
Record t := mk { amount : Q }.
Definition init (settings : Settings) (a : Q) : result t :=
  if Qlt_bool 0 a && Qle_bool a (MAX_TRANSACTION_AMOUNT settings)
  then Ok (mk a)
  else Raise (ValidationError "TransactionRequest" "amount").
End TransactionRequest.

(** ** The service object *)

(** A re-entrant lock.  Between two calls no lock is held, so the object
    has one state. *)
Inductive RLock := RLock_new.

Record AccountService := mkService {
  accounts : gmap string Account;
  global_lock : RLock;
  account_locks : gmap string RLock
}.

(** [AccountService.__init__] *)
Definition AccountService_init : AccountService :=
  {| accounts := ∅; global_lock := RLock_new; account_locks := ∅ |}.

(** [self.account_locks[key]] on a [defaultdict(threading.RLock)]: a
    missing key is inserted with a new lock. *)
Definition defaultdict_getitem (key : string) (d : gmap string RLock)
  : RLock * gmap string RLock :=
  match d !! key with
  | Some l => (l, d)
  | None => (RLock_new, <[key := RLock_new]> d)
  end.

Definition with_accounts (self : AccountService) (m : gmap string Account) : AccountService :=
  {| accounts := m; global_lock := global_lock self; account_locks := account_locks self |}.

Definition with_account_locks (self : AccountService) (d : gmap string RLock) : AccountService :=
  {| accounts := accounts self; global_lock := global_lock self; account_locks := d |}.

Section Service.

Variable settings : Settings.

(** [AccountService.create_account]; [uuid4] and [now] are what
    [str(uuid.uuid4())] and [datetime.now()] return in this call. *)
Definition create_account (uuid4 : string) (now : datetime) (initial_balance : Q)
    (self : AccountService) : result AccountCreateResponse.t * AccountService :=
  if Z.of_nat (size (accounts self)) >=? MAX_ACCOUNTS settings then
    (Raise (HTTPException HTTP_507_INSUFFICIENT_STORAGE
              ("Maximum number of accounts (" +:+ pretty (MAX_ACCOUNTS settings) +:+ ") reached")),
     self)
  else
    match Account_init uuid4 initial_balance now now with
    | Raise e => (Raise e, self)
    | Ok account =>
        let self1 := with_accounts self (<[uuid4 := account]> (accounts self)) in
        let '(_, locks) := defaultdict_getitem uuid4 (account_locks self1) in
        (Ok (AccountCreateResponse.mk uuid4 initial_balance "Account created successfully"),
         with_account_locks self1 locks)
    end.

(** [AccountService._get_account_unsafe] *)
Definition _get_account_unsafe (num : string) (self : AccountService) : result Account :=
  match accounts self !! num with
  | None => Raise (HTTPException HTTP_404_NOT_FOUND "Account not found")
  | Some a => Ok a
  end.

(** [AccountService.get_balance] *)
Definition get_balance (num : string) (self : AccountService)
  : result BalanceResponse.t * AccountService :=
  let '(_, locks) := defaultdict_getitem num (account_locks self) in
  let self := with_account_locks self locks in
  match _get_account_unsafe num self with
  | Raise e => (Raise e, self)
  | Ok account =>
      (Ok (BalanceResponse.mk (account_number account) (balance account)), self)
  end.

(** [AccountService.delete_account] *)
Definition delete_account (num : string) (self : AccountService)
  : result unit * AccountService :=
  match accounts self !! num with
  | None => (Raise (HTTPException HTTP_404_NOT_FOUND "Account not found"), self)
  | Some _ =>
      let '(_, locks) := defaultdict_getitem num (account_locks self) in
      let self := with_account_locks self locks in
      let self := with_accounts self (delete num (accounts self)) in
      let self :=
        match account_locks self !! num with
        | Some _ => with_account_locks self (delete num (account_locks self))
        | None => self
        end in
      (Ok tt, self)
  end.

(** One entry of the listing of [list_all_accounts]; the two time stamps
    are kept as values, their [isoformat()] rendering is not modelled. *)
Record AccountInfo := mkInfo {
  info_account_number : string;
  info_balance : Q;
  info_created_at : datetime;
  info_last_updated : datetime
}.

Record AccountsListing := mkListing {
  total_accounts : nat;
  max_accounts : Z;
  accounts_info : list AccountInfo
}.

(** [AccountService.list_all_accounts].  The entries come in the order
    of [map_to_list]; the insertion order of the Python dict is not kept. *)
Definition list_all_accounts (self : AccountService) : result AccountsListing * AccountService :=
  let accounts_info :=
    (λ kv : string * Account,
       mkInfo kv.1 (balance kv.2) (created_at kv.2) (last_updated kv.2))
      <$> map_to_list (accounts self) in
  (Ok (mkListing (length accounts_info) (MAX_ACCOUNTS settings) accounts_info), self).

(** [AccountService.get_account_count] *)
Definition get_account_count (self : AccountService) : nat := size (accounts self).

(** [AccountService._atomic_transaction] *)
Definition _atomic_transaction (num : string) (amount_change : Q)
    (transaction_type : string) (now : datetime) (self : AccountService)
  : result TransactionResponse.t * AccountService :=
  let '(_, locks) := defaultdict_getitem num (account_locks self) in
  let self := with_account_locks self locks in
  match _get_account_unsafe num self with
  | Raise e => (Raise e, self)
  | Ok account =>
      let old_balance := balance account in
      let new_balance := (old_balance + amount_change)%Q in
      if Qlt_bool amount_change 0 && Qlt_bool new_balance 0 then
        (Raise (HTTPException HTTP_400_BAD_REQUEST "Insufficient funds"), self)
      else
        let account := set_balance account new_balance in
        let account := set_last_updated account now in
        let self := with_accounts self (<[num := account]> (accounts self)) in
        let transaction_amount := Qabs amount_change in
        (Ok (TransactionResponse.mk num new_balance transaction_amount transaction_type
               (last_updated account)),
         self)
  end.

(** The [try]/[except] of [withdraw_money] and [deposit_money]: an
    [HTTPException] passes, any other exception becomes a 500. *)
Definition reraise_as_500 {A} (detail : string) (r : result A * AccountService)
  : result A * AccountService :=
  match r.1 with
  | Raise (ValidationError _ _) =>
      (Raise (HTTPException HTTP_500_INTERNAL_SERVER_ERROR detail), r.2)
  | _ => r
  end.

(** [AccountService.withdraw_money] *)
Definition withdraw_money (num : string) (amount : Q) (now : datetime) (self : AccountService)
  : result TransactionResponse.t * AccountService :=
  reraise_as_500 "Internal server error during withdrawal"
    (_atomic_transaction num (- amount)%Q "withdrawal" now self).

(** [AccountService.deposit_money] *)
Definition deposit_money (num : string) (amount : Q) (now : datetime) (self : AccountService)
  : result TransactionResponse.t * AccountService :=
  reraise_as_500 "Internal server error during deposit"
    (_atomic_transaction num amount "deposit" now self).

End Service.

(** ** The transaction routes ([app/routers/accounts.py])

    The handlers of [POST /accounts/{account_number}/withdraw] and
    [.../deposit] take [transaction: TransactionRequest]: the request body
    is validated into the model before the handler body runs, and the
    handler passes [transaction.amount] to the service. *)
Module Router.

Definition withdraw_money (settings : Settings) (num : string) (body_amount : Q)
    (now : datetime) (service : AccountService)
  : result TransactionResponse.t * AccountService :=
  match TransactionRequest.init settings body_amount with
  | Raise e => (Raise e, service)
  | Ok transaction =>
      withdraw_money num (TransactionRequest.amount transaction) now service
  end.

Definition deposit_money (settings : Settings) (num : string) (body_amount : Q)
    (now : datetime) (service : AccountService)
  : result TransactionResponse.t * AccountService :=
  match TransactionRequest.init settings body_amount with
  | Raise e => (Raise e, service)
  | Ok transaction =>
      deposit_money num (TransactionRequest.amount transaction) now service
  end.

End Router.

(** ** Calls and runs

    A caller of the service issues a sequence of method calls; each call
    carries its arguments and the environment readings it makes. *)

Inductive call :=
| CreateAccount (uuid4 : string) (now : datetime) (initial_balance : Q)
| GetBalance (num : string)
| DeleteAccount (num : string)
| ListAllAccounts
| WithdrawMoney (num : string) (amount : Q) (now : datetime)
| DepositMoney (num : string) (amount : Q) (now : datetime).

Inductive reply :=
| Created (r : AccountCreateResponse.t)
| Balance (r : BalanceResponse.t)
| Deleted
| Listing (l : AccountsListing)
| Transaction (r : TransactionResponse.t).

Definition map_result {A B} (f : A → B) (r : result A * AccountService)
  : result B * AccountService :=
  (match r.1 with Ok a => Ok (f a) | Raise e => Raise e end, r.2).

Definition exec (settings : Settings) (c : call) (self : AccountService)
  : result reply * AccountService :=
  match c with
  | CreateAccount uuid4 now b => map_result Created (create_account settings uuid4 now b self)
  | GetBalance num => map_result Balance (get_balance num self)
  | DeleteAccount num => map_result (λ _, Deleted) (delete_account num self)
  | ListAllAccounts => map_result Listing (list_all_accounts settings self)
  | WithdrawMoney num a now => map_result Transaction (withdraw_money num a now self)
  | DepositMoney num a now => map_result Transaction (deposit_money num a now self)
  end.

Definition step (settings : Settings) (c : call) (self : AccountService) : AccountService :=
  (exec settings c self).2.

(** The service object after the calls [cs], issued in order. *)
Fixpoint run (settings : Settings) (cs : list call) (self : AccountService) : AccountService :=
  match cs with
  | [] => self
  | c :: cs => run settings cs (step settings c self)
  end.

(** The outcomes of the calls [cs], in order. *)
Fixpoint outcomes (settings : Settings) (cs : list call) (self : AccountService)
  : list (result reply) :=
  match cs with
  | [] => []
  | c :: cs => (exec settings c self).1 :: outcomes settings cs (step settings c self)
  end.

(** The states of the service object a caller can bring about. *)
Inductive reachable (settings : Settings) : AccountService → Prop :=
| reachable_init : reachable settings AccountService_init
| reachable_step c self :
    reachable settings self → reachable settings (step settings c self).

(** The account id a call names, if it names one. *)
Definition target (c : call) : option string :=
  match c with
  | CreateAccount uuid4 _ _ => Some uuid4
  | GetBalance num | DeleteAccount num
  | WithdrawMoney num _ _ | DepositMoney num _ _ => Some num
  | ListAllAccounts => None
  end.

(** Reading a balance, withdrawing and depositing: the calls that work on
    one account. *)
Definition is_account_op (c : call) : bool :=
  match c with
  | GetBalance _ | WithdrawMoney _ _ _ | DepositMoney _ _ _ => true
  | _ => false
  end.

(** The calls of [cs] that name account [num], in order. *)
Fixpoint calls_on (num : string) (cs : list call) : list call :=
  match cs with
  | [] => []
  | c :: cs =>
      if bool_decide (target c = Some num) then c :: calls_on num cs else calls_on num cs
  end.




(** The creation calls for a list of (identifier, clock reading, initial
    balance). *)
Definition create_calls (l : list (string * datetime * Q)) : list call :=
  (λ x, CreateAccount x.1.1 x.1.2 x.2) <$> l.

(** ** Invariants *)


(** Every account has a lock entry. *)
Definition accounts_have_locks (self : AccountService) : Prop :=
  dom (accounts self) ⊆ dom (account_locks self).

(** ** Sample ledgers and call sequences *)

(** A ledger with one account, "a", created at time 1 with 500. *)
Definition one_account : AccountService :=
  run default_settings [CreateAccount "a" 1 500%Q] AccountService_init.

(** A ledger with two accounts, "a" with 500 and "b" with 70. *)
Definition two_accounts : AccountService :=
  run default_settings [CreateAccount "a" 1 500%Q; CreateAccount "b" 2 70%Q]
    AccountService_init.

(** Settings with room for one account and for two accounts
    ([MAX_ACCOUNTS] comes from the environment). *)
Definition settings_one : Settings :=
  {| MAX_ACCOUNTS := 1; MIN_BALANCE := 0%Q; MAX_TRANSACTION_AMOUNT := 10000%Q |}.

Definition settings_two : Settings :=
  {| MAX_ACCOUNTS := 2; MIN_BALANCE := 0%Q; MAX_TRANSACTION_AMOUNT := 10000%Q |}.

(** Under [settings_one], a ledger at capacity. *)
Definition full_ledger : AccountService :=
  run settings_one [CreateAccount "a" 1 500%Q] AccountService_init.

Definition two_creations : list (string * datetime * Q) :=
  [("a", 1, 500%Q); ("b", 2, 0%Q)].


Definition calls_after_delete : list call :=
  [CreateAccount "b" 3 10%Q; DepositMoney "a" 5%Q 4; GetBalance "b";
   ListAllAccounts; DeleteAccount "b"; WithdrawMoney "b" 1%Q 5].


(** ** The other routes of [app/routers/accounts.py] and the health route

    Each handler wraps the service call in [try]/[except]: an
    [HTTPException] passes, anything else becomes a 500.  The body of
    [POST /accounts] is validated into [AccountCreate] before the handler
    runs; a body without [initial_balance] takes the default 0.0. *)
Module AccountsRouter.

Definition create_account (settings : Settings) (body_initial_balance : option Q)
    (uuid4 : string) (now : datetime) (service : AccountService)
  : result AccountCreateResponse.t * AccountService :=
  match AccountCreate.init settings (default 0%Q body_initial_balance) with
  | Raise e => (Raise e, service)
  | Ok account_data =>
      reraise_as_500 "Internal server error during account creation"
        (create_account settings uuid4 now (AccountCreate.initial_balance account_data) service)
  end.

Definition get_balance (num : string) (service : AccountService)
  : result BalanceResponse.t * AccountService :=
  reraise_as_500 "Internal server error during balance retrieval" (get_balance num service).

Definition delete_account (num : string) (service : AccountService)
  : result unit * AccountService :=
  reraise_as_500 "Internal server error during account deletion" (delete_account num service).

(** [list_accounts] has a single [except Exception] clause. *)
Definition list_accounts (settings : Settings) (service : AccountService)
  : result AccountsListing * AccountService :=
  let r := list_all_accounts settings service in
  match r.1 with
  | Raise _ =>
      (Raise (HTTPException HTTP_500_INTERNAL_SERVER_ERROR
                "Internal server error during account listing"), r.2)
  | Ok _ => r
  end.

End AccountsRouter.

(** [app/routers/health.py]; [APP_VERSION] is the constant of
    [Settings], the time stamp is kept as a value. *)
Module Health.

Definition APP_VERSION : string := "1.0.0".

Record t := mk {
  status : string;
  accounts_count : nat;
  max_accounts : Z;
  timestamp : datetime;
  version : string
}.

Definition health_check (settings : Settings) (now : datetime) (service : AccountService) : t :=
  mk "healthy" (get_account_count service) (MAX_ACCOUNTS settings) now APP_VERSION.

End Health.

(** ** Further notions used in the statements below *)

(** The stored account number of every entry is its key. *)
Definition keys_match (self : AccountService) : Prop :=
  ∀ num a, accounts self !! num = Some a → account_number a = num.

(** The clock reading a call makes, if it makes one, and the readings of
    a sequence of calls. *)
Definition clock_reading (c : call) : option datetime :=
  match c with
  | CreateAccount _ now _ | WithdrawMoney _ _ now | DepositMoney _ _ now => Some now
  | _ => None
  end.

Definition clock_readings (cs : list call) : list datetime := omap clock_reading cs.

(** Every account was last updated no earlier than it was created, and
    no later than [t]. *)
Definition timestamps_bounded (t : datetime) (self : AccountService) : Prop :=
  ∀ num a, accounts self !! num = Some a →
           created_at a <= last_updated a ∧ last_updated a <= t.

(** The entry of the listing for the account [a] stored under [num]. *)
Definition info_of (num : string) (a : Account) : AccountInfo :=
  mkInfo num (balance a) (created_at a) (last_updated a).

(** A call sequence that exercises every method, for the examples. *)
Definition mixed_calls : list call :=
  [CreateAccount "a" 1 500%Q; GetBalance "ghost"; DepositMoney "a" 250%Q 2;
   CreateAccount "b" 3 70%Q; WithdrawMoney "b" 100%Q 4; ListAllAccounts;
   DeleteAccount "b"; WithdrawMoney "a" 50%Q 6].

(** The clock readings [l] never go back, starting from [t]. *)
Fixpoint nondecreasing_from (t : datetime) (l : list datetime) : Prop :=
  match l with
  | [] => True
  | x :: l => t <= x ∧ nondecreasing_from x l
  end.

Definition nondecreasing (l : list datetime) : Prop :=
  match l with
  | [] => True
  | x :: l => nondecreasing_from x l
  end.

(** ** Basic facts about the methods *)

Lemma Qlt_bool_iff (x y : Q) : Qlt_bool x y = true <-> (x < y)%Q.
Proof. unfold Qlt_bool, Qlt. apply Z.ltb_lt. Qed.

Lemma Qlt_bool_false (x y : Q) : Qlt_bool x y = false <-> (y <= x)%Q.
Proof. unfold Qlt_bool, Qle. rewrite Z.ltb_ge. reflexivity. Qed.

Lemma Qle_bool_false (x y : Q) : Qle_bool x y = false <-> (y < x)%Q.
Proof.
  unfold Qle_bool, Qlt. rewrite Z.leb_gt. reflexivity.
Qed.


Lemma reachable_run settings cs self :
  reachable settings self → reachable settings (run settings cs self).
Proof.
  revert self. induction cs as [|c cs IH]; intros self Hr; simpl; [done|].
  apply IH. by constructor.
Qed.

Lemma defaultdict_getitem_dom key d :
  dom (defaultdict_getitem key d).2 = {[key]} ∪ dom d.
Proof.
  unfold defaultdict_getitem. destruct (d !! key) as [l|] eqn:E; simpl.
  - symmetry. apply subseteq_union_1_L, singleton_subseteq_l, elem_of_dom. eauto.
  - by rewrite dom_insert_L.
Qed.

Lemma defaultdict_getitem_present key d :
  is_Some ((defaultdict_getitem key d).2 !! key).
Proof.
  unfold defaultdict_getitem. destruct (d !! key) as [l|] eqn:E; simpl.
  - by rewrite E.
  - by rewrite lookup_insert_eq.
Qed.

Lemma get_balance_unfold num self :
  get_balance num self =
  let self' := with_account_locks self (defaultdict_getitem num (account_locks self)).2 in
  match accounts self !! num with
  | None => (Raise (HTTPException HTTP_404_NOT_FOUND "Account not found"), self')
  | Some a => (Ok (BalanceResponse.mk (account_number a) (balance a)), self')
  end.
Proof.
  unfold get_balance, _get_account_unsafe.
  destruct (defaultdict_getitem num (account_locks self)) as [l locks]; simpl.
  by destruct (accounts self !! num).
Qed.

Lemma _atomic_transaction_unfold num change ty now self :
  _atomic_transaction num change ty now self =
  let self' := with_account_locks self (defaultdict_getitem num (account_locks self)).2 in
  match accounts self !! num with
  | None => (Raise (HTTPException HTTP_404_NOT_FOUND "Account not found"), self')
  | Some a =>
      if Qlt_bool change 0 && Qlt_bool (balance a + change) 0
      then (Raise (HTTPException HTTP_400_BAD_REQUEST "Insufficient funds"), self')
      else (Ok (TransactionResponse.mk num (balance a + change)%Q (Qabs change) ty now),
            with_accounts self'
              (<[num := mkAccount (account_number a) (balance a + change)%Q (created_at a) now]>
                 (accounts self)))
  end.
Proof.
  unfold _atomic_transaction, _get_account_unsafe.
  destruct (defaultdict_getitem num (account_locks self)) as [l locks]; simpl.
  destruct (accounts self !! num) as [a|]; [|done].
  by destruct (Qlt_bool change 0 && Qlt_bool (balance a + change) 0).
Qed.

Lemma withdraw_money_unfold num a now self :
  withdraw_money num a now self = _atomic_transaction num (- a)%Q "withdrawal" now self.
Proof.
  unfold withdraw_money, reraise_as_500. rewrite _atomic_transaction_unfold. simpl.
  destruct (accounts self !! num) as [acc|]; [|done].
  by destruct (Qlt_bool (- a) 0 && Qlt_bool (balance acc + - a) 0).
Qed.

Lemma deposit_money_unfold num a now self :
  deposit_money num a now self = _atomic_transaction num a "deposit" now self.
Proof.
  unfold deposit_money, reraise_as_500. rewrite _atomic_transaction_unfold. simpl.
  destruct (accounts self !! num) as [acc|]; [|done].
  by destruct (Qlt_bool a 0 && Qlt_bool (balance acc + a) 0).
Qed.

Lemma delete_account_unfold num self :
  delete_account num self =
  match accounts self !! num with
  | None => (Raise (HTTPException HTTP_404_NOT_FOUND "Account not found"), self)
  | Some _ =>
      (Ok tt, mkService (delete num (accounts self)) (global_lock self)
                (delete num (account_locks self)))
  end.
Proof.
  unfold delete_account. destruct (accounts self !! num) as [a|]; [|done].
  pose proof (defaultdict_getitem_present num (account_locks self)) as [l Hl].
  unfold defaultdict_getitem in *.
  destruct (account_locks self !! num) as [l'|] eqn:E; simpl in *.
  - rewrite E. done.
  - rewrite lookup_insert_eq. unfold with_account_locks, with_accounts; simpl.
    by rewrite delete_insert_eq.
Qed.

Lemma create_account_unfold settings uuid4 now b self :
  create_account settings uuid4 now b self =
  if Z.of_nat (size (accounts self)) >=? MAX_ACCOUNTS settings then
    (Raise (HTTPException HTTP_507_INSUFFICIENT_STORAGE
              ("Maximum number of accounts (" +:+ pretty (MAX_ACCOUNTS settings) +:+ ") reached")),
     self)
  else if Qle_bool 0 b then
    (Ok (AccountCreateResponse.mk uuid4 b "Account created successfully"),
     mkService (<[uuid4 := mkAccount uuid4 b now now]> (accounts self)) (global_lock self)
       (defaultdict_getitem uuid4 (account_locks self)).2)
  else (Raise (ValidationError "Account" "balance"), self).
Proof.
  unfold create_account, Account_init.
  destruct (Z.of_nat (size (accounts self)) >=? MAX_ACCOUNTS settings); [done|].
  destruct (Qle_bool 0 b); [|done]. simpl.
  by destruct (defaultdict_getitem uuid4 (account_locks self)).
Qed.

(** ** Non-negative balances *)








(** ** Withdrawals *)

(** C2.  On an existing account with balance [b], a withdrawal of an
    amount [a] with [0 < a <= MAX_TRANSACTION_AMOUNT] raises "Insufficient
    funds" exactly when [b - a < 0], and then the account table is as it
    was (balance and time stamps included); otherwise the response carries
    the new balance [b - a] and the account is stored with balance [b - a],
    its creation time kept and its last-updated time set to the clock
    reading of the call, which is also the time stamp of the response. *)
Theorem withdraw_money_spec settings num (a : Q) now self acc :
  accounts self !! num = Some acc →
  (0 < a)%Q → (a <= MAX_TRANSACTION_AMOUNT settings)%Q →
  let r := withdraw_money num a now self in
  (fails_with r.1 InsufficientFunds ↔ (balance acc - a < 0)%Q) ∧
  ((balance acc - a < 0)%Q → accounts r.2 = accounts self) ∧
  (¬ (balance acc - a < 0)%Q →
   r.1 = Ok (TransactionResponse.mk num (balance acc - a)%Q (Qabs (- a)) "withdrawal" now) ∧
   accounts r.2 =
     <[num := mkAccount (account_number acc) (balance acc - a)%Q (created_at acc) now]>
       (accounts self)).
Proof.
  intros Hacc Hpos _ r. subst r.
  rewrite withdraw_money_unfold, _atomic_transaction_unfold. simpl. rewrite Hacc.
  assert (Qlt_bool (- a) 0 = true) as -> by (apply Qlt_bool_iff; lra).
  rewrite andb_true_l. fold (balance acc - a)%Q.
  destruct (Qlt_bool (balance acc - a) 0) eqn:Hlt; simpl.
  - apply Qlt_bool_iff in Hlt. split; [done|]. split; [done|]. intros Hn. by destruct Hn.
  - apply Qlt_bool_false in Hlt. split; [|split].
    + split; [done|]. intros H. exfalso. lra.
    + intros H. exfalso. lra.
    + done.
Qed.

Lemma withdraw_money_spec_witness :
  let r := withdraw_money "a" 100%Q 2 one_account in
  (fails_with r.1 InsufficientFunds ↔ (500 - 100 < 0)%Q) ∧
  ((500 - 100 < 0)%Q → accounts r.2 = accounts one_account) ∧
  (¬ (500 - 100 < 0)%Q →
   r.1 = Ok (TransactionResponse.mk "a" (500 - 100)%Q (Qabs (- 100)) "withdrawal" 2) ∧
   accounts r.2 = <[ "a" := mkAccount "a" (500 - 100)%Q 1 2 ]> (accounts one_account)).
Proof.
  apply (withdraw_money_spec default_settings "a" 100%Q 2 one_account
           (mkAccount "a" 500%Q 1 1)).
  - vm_compute. reflexivity.
  - reflexivity.
  - vm_compute. discriminate.
Defined.

(** ** Where amounts are validated *)





(** ** Negative initial balances *)

(** With [MAX_ACCOUNTS] set to 1 and one account in the ledger, creating
    an account with initial balance -1 raises the 507 of the capacity
    check, not a validation error. *)
Lemma negative_create_at_capacity :
  (-1 < 0)%Q ∧
  reachable settings_one full_ledger ∧
  fails_with (create_account settings_one "b" 2 (-1)%Q full_ledger).1 CapacityExceeded ∧
  ¬ fails_with (create_account settings_one "b" 2 (-1)%Q full_ledger).1 InvalidAmount.
Proof.
  split; [reflexivity|]. split; [apply reachable_run; constructor|].
  split; [vm_compute; reflexivity|]. vm_compute. discriminate.
Qed.

(** C4, as the code has it.  A creation with a negative initial balance
    never inserts an account and always raises: the 507 of the capacity
    check when the ledger is at capacity (that check comes first), and
    otherwise the validation error of the [Account] model, whose balance
    field must be at least zero; this happens inside the service, whatever
    the request layer checked. *)
Theorem create_account_rejects_negative settings uuid4 now (b : Q) self :
  (b < 0)%Q →
  let r := create_account settings uuid4 now b self in
  r.2 = self ∧
  (MAX_ACCOUNTS settings <= Z.of_nat (size (accounts self)) → fails_with r.1 CapacityExceeded) ∧
  (Z.of_nat (size (accounts self)) < MAX_ACCOUNTS settings →
   r.1 = Raise (ValidationError "Account" "balance") ∧ fails_with r.1 InvalidAmount).
Proof.
  intros Hb r. subst r. rewrite create_account_unfold.
  destruct (Z.of_nat (size (accounts self)) >=? MAX_ACCOUNTS settings) eqn:Hcap.
  - simpl. split; [done|]. split; [done|]. intros Hlt. exfalso. lia.
  - assert (Qle_bool 0 b = false) as -> by (apply Qle_bool_false; exact Hb).
    simpl. split; [done|]. split; [|done]. intros Hge. exfalso. lia.
Qed.

Lemma create_account_rejects_negative_witness :
  let r := create_account default_settings "b" 2 (-1)%Q one_account in
  r.2 = one_account ∧
  (MAX_ACCOUNTS default_settings <= Z.of_nat (size (accounts one_account)) →
   fails_with r.1 CapacityExceeded) ∧
  (Z.of_nat (size (accounts one_account)) < MAX_ACCOUNTS default_settings →
   r.1 = Raise (ValidationError "Account" "balance") ∧ fails_with r.1 InvalidAmount).
Proof.
  apply (create_account_rejects_negative default_settings "b" 2 (-1)%Q one_account).
  reflexivity.
Defined.

(** ** The lock table *)

(** Asking for the balance of an id that has no account leaves a lock
    entry for that id: the lock table is a [defaultdict], and the lookup
    [self.account_locks[account_number]] comes before the account check. *)
Lemma get_balance_absent_leaves_lock :
  let s := step default_settings (GetBalance "ghost") AccountService_init in
  reachable default_settings s ∧
  fails_with (get_balance "ghost" AccountService_init).1 NotFound ∧
  dom (accounts s) = ∅ ∧
  dom (account_locks s) = {[ "ghost" ]} ∧
  dom (account_locks s) ≠ dom (accounts s).
Proof.
  simpl. split; [repeat constructor|]. split; [vm_compute; reflexivity|].
  unfold step. simpl. rewrite get_balance_unfold. simpl.
  rewrite lookup_empty. simpl. rewrite defaultdict_getitem_dom.
  rewrite !dom_empty_L, (right_id_L ∅ (∪)).
  split; [done|]. split; [done|].
  intros H. assert ("ghost" ∈ (∅ : gset string)) as Hin by (rewrite <- H; set_solver).
  by apply not_elem_of_empty in Hin.
Qed.

Lemma step_accounts_have_locks settings c self :
  accounts_have_locks self → accounts_have_locks (step settings c self).
Proof.
  unfold accounts_have_locks, step. intros Hinv. destruct c; simpl.
  - rewrite create_account_unfold.
    destruct (Z.of_nat (size (accounts self)) >=? MAX_ACCOUNTS settings); [exact Hinv|].
    destruct (Qle_bool 0 initial_balance); [|exact Hinv]. simpl.
    rewrite dom_insert_L, defaultdict_getitem_dom. set_solver.
  - rewrite get_balance_unfold. simpl.
    destruct (accounts self !! num); simpl; rewrite defaultdict_getitem_dom; set_solver.
  - rewrite delete_account_unfold.
    destruct (accounts self !! num); [|exact Hinv]. simpl.
    rewrite !dom_delete_L. set_solver.
  - exact Hinv.
  - rewrite withdraw_money_unfold, _atomic_transaction_unfold. simpl.
    destruct (accounts self !! num) as [a|] eqn:Ha; simpl;
      [destruct (Qlt_bool (- amount) 0 && Qlt_bool (balance a + - amount) 0); simpl|];
      rewrite ?dom_insert_L, defaultdict_getitem_dom; set_solver.
  - rewrite deposit_money_unfold, _atomic_transaction_unfold. simpl.
    destruct (accounts self !! num) as [a|] eqn:Ha; simpl;
      [destruct (Qlt_bool amount 0 && Qlt_bool (balance a + amount) 0); simpl|];
      rewrite ?dom_insert_L, defaultdict_getitem_dom; set_solver.
Qed.

(** C5, as the code has it.  In every state a caller can bring about, the
    keys of the account table are among the keys of the lock table.  A
    successful creation adds its id to both tables; a successful deletion
    removes its id from both; a creation or deletion that raises, and a
    listing, change neither table. *)
Theorem lock_table_covers_accounts settings self :
  reachable settings self →
  dom (accounts self) ⊆ dom (account_locks self) ∧
  (∀ uuid4 now b,
     let r := create_account settings uuid4 now b self in
     (succeeds r.1 →
      dom (accounts r.2) = {[uuid4]} ∪ dom (accounts self) ∧
      dom (account_locks r.2) = {[uuid4]} ∪ dom (account_locks self)) ∧
     (¬ succeeds r.1 → r.2 = self)) ∧
  (∀ num,
     let r := delete_account num self in
     (succeeds r.1 →
      dom (accounts r.2) = dom (accounts self) ∖ {[num]} ∧
      dom (account_locks r.2) = dom (account_locks self) ∖ {[num]}) ∧
     (¬ succeeds r.1 → r.2 = self)) ∧
  (list_all_accounts settings self).2 = self.
Proof.
  intros Hr. split; [|split; [|split]].
  - induction Hr as [|c self Hr IH].
    + simpl. by rewrite dom_empty_L.
    + by apply step_accounts_have_locks.
  - intros uuid4 now b r. subst r. rewrite create_account_unfold.
    destruct (Z.of_nat (size (accounts self)) >=? MAX_ACCOUNTS settings); [done|].
    destruct (Qle_bool 0 b); [|done]. simpl. split; [|by intros []].
    intros _. by rewrite dom_insert_L, defaultdict_getitem_dom.
  - intros num r. subst r. rewrite delete_account_unfold.
    destruct (accounts self !! num); [|done]. simpl. split; [|by intros []].
    intros _. by rewrite !dom_delete_L.
  - done.
Qed.

Lemma lock_table_covers_accounts_witness :
  dom (accounts one_account) ⊆ dom (account_locks one_account) ∧
  (∀ uuid4 now b,
     let r := create_account default_settings uuid4 now b one_account in
     (succeeds r.1 →
      dom (accounts r.2) = {[uuid4]} ∪ dom (accounts one_account) ∧
      dom (account_locks r.2) = {[uuid4]} ∪ dom (account_locks one_account)) ∧
     (¬ succeeds r.1 → r.2 = one_account)) ∧
  (∀ num,
     let r := delete_account num one_account in
     (succeeds r.1 →
      dom (accounts r.2) = dom (accounts one_account) ∖ {[num]} ∧
      dom (account_locks r.2) = dom (account_locks one_account) ∖ {[num]}) ∧
     (¬ succeeds r.1 → r.2 = one_account)) ∧
  (list_all_accounts default_settings one_account).2 = one_account.
Proof.
  apply (lock_table_covers_accounts default_settings one_account).
  unfold one_account. apply reachable_run. constructor.
Defined.

(** ** Capacity *)

Lemma create_account_capacity_iff settings uuid4 now b self :
  fails_with (create_account settings uuid4 now b self).1 CapacityExceeded ↔
  MAX_ACCOUNTS settings <= Z.of_nat (size (accounts self)).
Proof.
  rewrite create_account_unfold.
  destruct (Z.of_nat (size (accounts self)) >=? MAX_ACCOUNTS settings) eqn:Hcap.
  - simpl. split; [lia|done].
  - destruct (Qle_bool 0 b); simpl; (split; [done|lia]).
Qed.

Lemma create_account_below_capacity settings uuid4 now (b : Q) self :
  Z.of_nat (size (accounts self)) < MAX_ACCOUNTS settings → (0 <= b)%Q →
  create_account settings uuid4 now b self =
  (Ok (AccountCreateResponse.mk uuid4 b "Account created successfully"),
   mkService (<[uuid4 := mkAccount uuid4 b now now]> (accounts self)) (global_lock self)
     (defaultdict_getitem uuid4 (account_locks self)).2).
Proof.
  intros Hlt Hb. rewrite create_account_unfold.
  assert ((Z.of_nat (size (accounts self)) >=? MAX_ACCOUNTS settings) = false) as -> by lia.
  assert (Qle_bool 0 b = true) as Hle by (by apply Qle_bool_iff).
  by rewrite Hle.
Qed.

Lemma run_create_calls settings l : ∀ self,
  NoDup (l.*1.*1) →
  (∀ k, k ∈ l.*1.*1 → accounts self !! k = None) →
  Forall (λ x, (0 <= x.2)%Q) l →
  Z.of_nat (size (accounts self) + length l) <= MAX_ACCOUNTS settings →
  Forall succeeds (outcomes settings (create_calls l) self) ∧
  size (accounts (run settings (create_calls l) self)) = (size (accounts self) + length l)%nat.
Proof.
  induction l as [|[[k t] b] l IH]; intros self Hnd Hfresh Hpos Hcap; simpl in *.
  - split; [constructor|lia].
  - apply NoDup_cons in Hnd as [Hk Hnd]. apply Forall_cons in Hpos as [Hb Hpos].
    simpl in Hb. unfold step. simpl.
    rewrite create_account_below_capacity by (done || lia). simpl.
    assert (accounts self !! k = None) as Hnone by (apply Hfresh; left).
    destruct (IH (mkService (<[k:=mkAccount k b t t]> (accounts self)) (global_lock self)
                   (defaultdict_getitem k (account_locks self)).2)) as [Hall Hsize];
      simpl; try done.
    + intros k' Hk'. rewrite lookup_insert_ne; [apply Hfresh; by right|].
      intros ->. done.
    + rewrite map_size_insert_None by done. lia.
    + split; [by constructor|]. rewrite Hsize. simpl.
      rewrite map_size_insert_None by done. lia.
Qed.

(** C6.  A creation raises the 507 of the capacity check if and only if
    the number of accounts is at least [MAX_ACCOUNTS], and it then leaves
    the ledger as it was.  Starting from the empty ledger, [MAX_ACCOUNTS]
    creations (distinct identifiers, initial balances at least zero) all
    succeed; the next creation raises the 507 and inserts nothing; and
    after a deletion that succeeds, a creation (with an initial balance at
    least zero) succeeds and stores its account. *)
Theorem capacity_enforcement settings :
  (∀ uuid4 now b self,
     let r := create_account settings uuid4 now b self in
     (fails_with r.1 CapacityExceeded ↔
      MAX_ACCOUNTS settings <= Z.of_nat (size (accounts self))) ∧
     (fails_with r.1 CapacityExceeded → r.2 = self)) ∧
  (∀ l,
     NoDup (l.*1.*1) → Forall (λ x, (0 <= x.2)%Q) l →
     Z.of_nat (length l) = MAX_ACCOUNTS settings →
     let full := run settings (create_calls l) AccountService_init in
     Forall succeeds (outcomes settings (create_calls l) AccountService_init) ∧
     size (accounts full) = length l ∧
     (∀ uuid4 now b,
        fails_with (create_account settings uuid4 now b full).1 CapacityExceeded ∧
        (create_account settings uuid4 now b full).2 = full) ∧
     (∀ num uuid4 now (b : Q),
        succeeds (delete_account num full).1 → (0 <= b)%Q →
        let r := create_account settings uuid4 now b (delete_account num full).2 in
        succeeds r.1 ∧ accounts r.2 !! uuid4 = Some (mkAccount uuid4 b now now))).
Proof.
  assert (∀ uuid4 now b self,
    fails_with (create_account settings uuid4 now b self).1 CapacityExceeded →
    (create_account settings uuid4 now b self).2 = self) as Hsame.
  { intros uuid4 now b self. rewrite create_account_unfold.
    destruct (Z.of_nat (size (accounts self)) >=? MAX_ACCOUNTS settings); [done|].
    by destruct (Qle_bool 0 b). }
  split.
  - intros uuid4 now b self r. subst r. split; [apply create_account_capacity_iff|apply Hsame].
  - intros l Hnd Hpos Hlen full.
    destruct (run_create_calls settings l AccountService_init) as [Hall Hsize]; try done.
    { simpl. rewrite map_size_empty. lia. }
    simpl in Hsize. rewrite map_size_empty in Hsize. simpl in Hsize. fold full in Hsize.
    split; [done|]. split; [done|]. split.
    + intros uuid4 now b.
      assert (fails_with (create_account settings uuid4 now b full).1 CapacityExceeded) as Hf.
      { apply create_account_capacity_iff. lia. }
      split; [done|]. by apply Hsame.
    + intros num uuid4 now b Hdel Hb r. subst r.
      rewrite delete_account_unfold in *.
      destruct (accounts full !! num) as [a|] eqn:Ha; [|done]. simpl.
      rewrite create_account_below_capacity; simpl.
      * split; [done|]. by rewrite lookup_insert_eq.
      * rewrite map_size_delete, Ha. simpl.
        assert (size (accounts full) ≠ 0%nat).
        { intros H0. apply map_size_empty_inv in H0. rewrite H0 in Ha.
          by rewrite lookup_empty in Ha. }
        lia.
      * done.
Qed.

Lemma capacity_enforcement_witness :
  let full := run settings_two (create_calls two_creations) AccountService_init in
  Forall succeeds (outcomes settings_two (create_calls two_creations) AccountService_init) ∧
  size (accounts full) = length two_creations ∧
  (∀ uuid4 now b,
     fails_with (create_account settings_two uuid4 now b full).1 CapacityExceeded ∧
     (create_account settings_two uuid4 now b full).2 = full) ∧
  (∀ num uuid4 now (b : Q),
     succeeds (delete_account num full).1 → (0 <= b)%Q →
     let r := create_account settings_two uuid4 now b (delete_account num full).2 in
     succeeds r.1 ∧ accounts r.2 !! uuid4 = Some (mkAccount uuid4 b now now)).
Proof.
  apply (proj2 (capacity_enforcement settings_two) two_creations).
  - vm_compute. repeat constructor; set_solver.
  - repeat constructor; simpl; discriminate.
  - reflexivity.
Defined.

(** ** Deletion is final *)

(** A call other than a creation under identifier [num] leaves [num]
    absent if it was absent. *)
Lemma step_keeps_absent settings c num self :
  (∀ now b, c ≠ CreateAccount num now b) →
  accounts self !! num = None → accounts (step settings c self) !! num = None.
Proof.
  intros Hc Habs. unfold step. destruct c as [u t b|n|n| |n a t|n a t]; simpl.
  - rewrite create_account_unfold.
    destruct (Z.of_nat (size (accounts self)) >=? MAX_ACCOUNTS settings); [done|].
    destruct (Qle_bool 0 b); [|done]. simpl.
    rewrite lookup_insert_ne; [done|]. intros ->. by eapply Hc.
  - rewrite get_balance_unfold. simpl. by destruct (accounts self !! n).
  - rewrite delete_account_unfold. destruct (accounts self !! n); [|done]. simpl.
    by apply lookup_delete_None; right.
  - done.
  - rewrite withdraw_money_unfold, _atomic_transaction_unfold. simpl.
    destruct (accounts self !! n) as [acc|] eqn:Hn; [|done].
    destruct (Qlt_bool (- a) 0 && Qlt_bool (balance acc + - a) 0); [done|]. simpl.
    rewrite lookup_insert_ne; [done|]. intros ->. congruence.
  - rewrite deposit_money_unfold, _atomic_transaction_unfold. simpl.
    destruct (accounts self !! n) as [acc|] eqn:Hn; [|done].
    destruct (Qlt_bool a 0 && Qlt_bool (balance acc + a) 0); [done|]. simpl.
    rewrite lookup_insert_ne; [done|]. intros ->. congruence.
Qed.

Lemma run_keeps_absent settings cs num : ∀ self,
  Forall (λ c, ∀ now b, c ≠ CreateAccount num now b) cs →
  accounts self !! num = None → accounts (run settings cs self) !! num = None.
Proof.
  induction cs as [|c cs IH]; intros self Hcs Habs; simpl; [done|].
  apply Forall_cons in Hcs as [Hc Hcs]. apply IH; [done|].
  by apply step_keeps_absent.
Qed.

Lemma absent_not_found num self :
  accounts self !! num = None →
  fails_with (get_balance num self).1 NotFound ∧
  (∀ a now, fails_with (deposit_money num a now self).1 NotFound) ∧
  (∀ a now, fails_with (withdraw_money num a now self).1 NotFound) ∧
  fails_with (delete_account num self).1 NotFound.
Proof.
  intros Habs. repeat split; intros.
  - by rewrite get_balance_unfold; simpl; rewrite Habs.
  - by rewrite deposit_money_unfold, _atomic_transaction_unfold; simpl; rewrite Habs.
  - by rewrite withdraw_money_unfold, _atomic_transaction_unfold; simpl; rewrite Habs.
  - by rewrite delete_account_unfold, Habs.
Qed.

(** C7.  Once [delete_account num] has succeeded, then after any further
    calls, none of which is a creation that draws the identifier [num]
    again (identifiers are fresh [uuid4] values), reading the balance of
    [num], depositing to it, withdrawing from it and deleting it all raise
    the 404 "Account not found". *)
Theorem deletion_is_final settings num self cs :
  succeeds (delete_account num self).1 →
  Forall (λ c, ∀ now b, c ≠ CreateAccount num now b) cs →
  let later := run settings cs (delete_account num self).2 in
  fails_with (get_balance num later).1 NotFound ∧
  (∀ a now, fails_with (deposit_money num a now later).1 NotFound) ∧
  (∀ a now, fails_with (withdraw_money num a now later).1 NotFound) ∧
  fails_with (delete_account num later).1 NotFound.
Proof.
  intros Hdel Hcs later. apply absent_not_found. subst later.
  apply run_keeps_absent; [done|].
  rewrite delete_account_unfold in *.
  destruct (accounts self !! num); [|done]. simpl. apply lookup_delete_eq.
Qed.

Lemma deletion_is_final_witness :
  let later := run default_settings calls_after_delete (delete_account "a" one_account).2 in
  fails_with (get_balance "a" later).1 NotFound ∧
  (∀ a now, fails_with (deposit_money "a" a now later).1 NotFound) ∧
  (∀ a now, fails_with (withdraw_money "a" a now later).1 NotFound) ∧
  fails_with (delete_account "a" later).1 NotFound.
Proof.
  apply (deletion_is_final default_settings "a" one_account calls_after_delete).
  - vm_compute. exact I.
  - unfold calls_after_delete. repeat constructor; intros now b; discriminate.
Defined.

(** ** Conservation *)




(** ** Isolation of accounts *)

Lemma account_op_frame settings c other self :
  is_account_op c = true → target c ≠ Some other →
  accounts (step settings c self) !! other = accounts self !! other.
Proof.
  intros Hop Hne. unfold step.
  destruct c as [| n | | | n a t | n a t]; try done; simpl in *.
  - rewrite get_balance_unfold. simpl. by destruct (accounts self !! n).
  - rewrite withdraw_money_unfold, _atomic_transaction_unfold. simpl.
    destruct (accounts self !! n) as [acc|]; [|done].
    destruct (Qlt_bool (- a) 0 && Qlt_bool (balance acc + - a) 0); [done|]. simpl.
    apply lookup_insert_ne. congruence.
  - rewrite deposit_money_unfold, _atomic_transaction_unfold. simpl.
    destruct (accounts self !! n) as [acc|]; [|done].
    destruct (Qlt_bool a 0 && Qlt_bool (balance acc + a) 0); [done|]. simpl.
    apply lookup_insert_ne. congruence.
Qed.

(** What an account operation does to the entry of its own account
    depends on that entry only. *)
Lemma account_op_local settings c num self1 self2 :
  is_account_op c = true → target c = Some num →
  accounts self1 !! num = accounts self2 !! num →
  accounts (step settings c self1) !! num = accounts (step settings c self2) !! num.
Proof.
  intros Hop Ht Heq. unfold step.
  destruct c as [| n | | | n a t | n a t]; try done; simpl in *;
    injection Ht as ->.
  - rewrite !get_balance_unfold.
    destruct (accounts self1 !! num) eqn:H1, (accounts self2 !! num) eqn:H2;
      simpl; congruence.
  - rewrite !withdraw_money_unfold, !_atomic_transaction_unfold. simpl. rewrite <- Heq.
    destruct (accounts self1 !! num) as [acc|] eqn:H1; [|by simpl; rewrite H1].
    destruct (Qlt_bool (- a) 0 && Qlt_bool (balance acc + - a) 0); simpl;
      [by rewrite H1|by rewrite !lookup_insert_eq].
  - rewrite !deposit_money_unfold, !_atomic_transaction_unfold. simpl. rewrite <- Heq.
    destruct (accounts self1 !! num) as [acc|] eqn:H1; [|by simpl; rewrite H1].
    destruct (Qlt_bool a 0 && Qlt_bool (balance acc + a) 0); simpl;
      [by rewrite H1|by rewrite !lookup_insert_eq].
Qed.

Lemma run_calls_on settings num cs : ∀ self1 self2,
  Forall (λ c, is_account_op c = true) cs →
  accounts self1 !! num = accounts self2 !! num →
  accounts (run settings cs self1) !! num =
  accounts (run settings (calls_on num cs) self2) !! num.
Proof.
  induction cs as [|c cs IH]; intros self1 self2 Hops Heq; simpl; [done|].
  apply Forall_cons in Hops as [Hop Hops].
  case_bool_decide as Ht; simpl.
  - apply IH; [done|]. by apply account_op_local.
  - apply IH; [done|]. rewrite <- Heq. by apply account_op_frame.
Qed.

(** C9.  For two distinct ids [A] and [B], a deposit to [A], a
    withdrawal from [A] and a balance query on [A] each leave the entry of
    [B] (balance and both time stamps) as it was.  Hence, in any sequence
    of such operations on any accounts, the entry of [B] at the end is the
    one that the operations on [B] alone produce. *)
Theorem accounts_are_isolated settings (A B : string) self :
  A ≠ B →
  (∀ a now, accounts (deposit_money A a now self).2 !! B = accounts self !! B) ∧
  (∀ a now, accounts (withdraw_money A a now self).2 !! B = accounts self !! B) ∧
  accounts (get_balance A self).2 !! B = accounts self !! B ∧
  (∀ cs, Forall (λ c, is_account_op c = true) cs →
         accounts (run settings cs self) !! B =
         accounts (run settings (calls_on B cs) self) !! B).
Proof.
  intros Hne. repeat split.
  - intros a now.
    apply (account_op_frame settings (DepositMoney A a now) B self); simpl; congruence.
  - intros a now.
    apply (account_op_frame settings (WithdrawMoney A a now) B self); simpl; congruence.
  - apply (account_op_frame settings (GetBalance A) B self); simpl; congruence.
  - intros cs Hops. by apply run_calls_on.
Qed.

Lemma accounts_are_isolated_witness :
  (∀ a now, accounts (deposit_money "a" a now two_accounts).2 !! "b"
            = accounts two_accounts !! "b") ∧
  (∀ a now, accounts (withdraw_money "a" a now two_accounts).2 !! "b"
            = accounts two_accounts !! "b") ∧
  accounts (get_balance "a" two_accounts).2 !! "b" = accounts two_accounts !! "b" ∧
  (∀ cs, Forall (λ c, is_account_op c = true) cs →
         accounts (run default_settings cs two_accounts) !! "b" =
         accounts (run default_settings (calls_on "b" cs) two_accounts) !! "b").
Proof.
  apply (accounts_are_isolated default_settings "a" "b" two_accounts).
  discriminate.
Defined.

(** ** Reading a balance *)

Lemma defaultdict_getitem_again key d :
  (defaultdict_getitem key (defaultdict_getitem key d).2).2 = (defaultdict_getitem key d).2.
Proof.
  destruct (defaultdict_getitem_present key d) as [l Hl].
  unfold defaultdict_getitem at 1. by rewrite Hl.
Qed.

(** X1.  [get_balance] does not change the account table, and asking
    again gives the same answer and the same service object: whatever the
    first call added to the lock table is already there for the second. *)
Theorem get_balance_idempotent num self :
  accounts (get_balance num self).2 = accounts self ∧
  get_balance num (get_balance num self).2 = get_balance num self.
Proof.
  split.
  - rewrite get_balance_unfold. simpl. by destruct (accounts self !! num).
  - rewrite (get_balance_unfold num (get_balance num self).2).
    rewrite (get_balance_unfold num self). simpl.
    destruct (accounts self !! num) as [a|] eqn:Ha; simpl; rewrite Ha;
      unfold with_account_locks; simpl; by rewrite defaultdict_getitem_again.
Qed.

(** ** Calls that raise *)

(** X2.  A call that raises leaves the account table exactly as it was,
    whichever method it is; a creation or a deletion that raises leaves the
    whole service object as it was. *)
Theorem raising_call_changes_no_account settings c self e :
  (exec settings c self).1 = Raise e →
  accounts (step settings c self) = accounts self ∧
  (is_account_op c = false → step settings c self = self).
Proof.
  unfold step. intros Hraise.
  destruct c as [u t b|n|n| |n a t|n a t]; simpl in *.
  - rewrite create_account_unfold in *.
    destruct (Z.of_nat (size (accounts self)) >=? MAX_ACCOUNTS settings); [done|].
    by destruct (Qle_bool 0 b).
  - split; [|done]. rewrite get_balance_unfold. simpl. by destruct (accounts self !! n).
  - rewrite delete_account_unfold in *. by destruct (accounts self !! n).
  - done.
  - split; [|done].
    rewrite withdraw_money_unfold, _atomic_transaction_unfold in *. simpl in *.
    destruct (accounts self !! n) as [acc|]; [|done].
    by destruct (Qlt_bool (- a) 0 && Qlt_bool (balance acc + - a) 0).
  - split; [|done].
    rewrite deposit_money_unfold, _atomic_transaction_unfold in *. simpl in *.
    destruct (accounts self !! n) as [acc|]; [|done].
    by destruct (Qlt_bool a 0 && Qlt_bool (balance acc + a) 0).
Qed.

Lemma raising_call_changes_no_account_witness :
  accounts (step default_settings (WithdrawMoney "a" 1000%Q 2) one_account)
    = accounts one_account ∧
  (is_account_op (WithdrawMoney "a" 1000%Q 2) = false →
   step default_settings (WithdrawMoney "a" 1000%Q 2) one_account = one_account).
Proof.
  apply (raising_call_changes_no_account default_settings (WithdrawMoney "a" 1000%Q 2)
           one_account (HTTPException HTTP_400_BAD_REQUEST "Insufficient funds")).
  vm_compute. reflexivity.
Defined.

(** ** The number of accounts *)

Lemma step_size_bound settings c self :
  Z.of_nat (size (accounts self)) <= Z.max 0 (MAX_ACCOUNTS settings) →
  Z.of_nat (size (accounts (step settings c self))) <= Z.max 0 (MAX_ACCOUNTS settings).
Proof.
  unfold step. intros Hb. destruct c as [u t b|n|n| |n a t|n a t]; simpl.
  - rewrite create_account_unfold.
    destruct (Z.of_nat (size (accounts self)) >=? MAX_ACCOUNTS settings) eqn:Hcap; [done|].
    destruct (Qle_bool 0 b); [|done]. simpl.
    destruct (accounts self !! u) as [old|] eqn:Hu.
    + rewrite map_size_insert_Some by done. done.
    + rewrite map_size_insert_None by done. lia.
  - rewrite get_balance_unfold. simpl. by destruct (accounts self !! n).
  - rewrite delete_account_unfold. destruct (accounts self !! n) eqn:Hn; [|done]. simpl.
    rewrite map_size_delete, Hn. lia.
  - done.
  - rewrite withdraw_money_unfold, _atomic_transaction_unfold. simpl.
    destruct (accounts self !! n) as [acc|] eqn:Hn; [|done].
    destruct (Qlt_bool (- a) 0 && Qlt_bool (balance acc + - a) 0); [done|]. simpl.
    by rewrite map_size_insert_Some.
  - rewrite deposit_money_unfold, _atomic_transaction_unfold. simpl.
    destruct (accounts self !! n) as [acc|] eqn:Hn; [|done].
    destruct (Qlt_bool a 0 && Qlt_bool (balance acc + a) 0); [done|]. simpl.
    by rewrite map_size_insert_Some.
Qed.

(** X3.  In every state a caller can bring about, the number of accounts
    is at most [MAX_ACCOUNTS] (at most 0 when [MAX_ACCOUNTS] is negative);
    so with [MAX_ACCOUNTS >= 0] the health route always reports
    [accounts_count <= max_accounts]. *)
Theorem account_count_bounded settings self :
  reachable settings self →
  Z.of_nat (get_account_count self) <= Z.max 0 (MAX_ACCOUNTS settings) ∧
  ∀ now, 0 <= MAX_ACCOUNTS settings →
         Z.of_nat (Health.accounts_count (Health.health_check settings now self))
         <= Health.max_accounts (Health.health_check settings now self).
Proof.
  intros Hr.
  assert (Z.of_nat (size (accounts self)) <= Z.max 0 (MAX_ACCOUNTS settings)) as Hb.
  { induction Hr as [|c self Hr IH].
    - simpl. rewrite map_size_empty. lia.
    - by apply step_size_bound. }
  split; [exact Hb|]. intros now Hmax. simpl. unfold get_account_count. lia.
Qed.

Lemma account_count_bounded_witness :
  Z.of_nat (get_account_count full_ledger) <= Z.max 0 (MAX_ACCOUNTS settings_one) ∧
  ∀ now, 0 <= MAX_ACCOUNTS settings_one →
         Z.of_nat (Health.accounts_count (Health.health_check settings_one now full_ledger))
         <= Health.max_accounts (Health.health_check settings_one now full_ledger).
Proof.
  apply (account_count_bounded settings_one full_ledger).
  unfold full_ledger. apply reachable_run. constructor.
Defined.

(** ** Account numbers *)

Lemma step_keys_match settings c self :
  keys_match self → keys_match (step settings c self).
Proof.
  unfold step. intros Hinv. destruct c as [u t b|n|n| |n a t|n a t]; simpl.
  - rewrite create_account_unfold.
    destruct (Z.of_nat (size (accounts self)) >=? MAX_ACCOUNTS settings); [done|].
    destruct (Qle_bool 0 b); [|done]. simpl. intros k acc Hk. simpl in Hk.
    apply lookup_insert_Some in Hk as [[<- <-]|[_ Hk]]; [done|by apply Hinv].
  - rewrite get_balance_unfold. simpl. by destruct (accounts self !! n).
  - rewrite delete_account_unfold. destruct (accounts self !! n); [|done]. simpl.
    intros k acc Hk. simpl in Hk. apply lookup_delete_Some in Hk as [_ Hk]. by apply Hinv.
  - done.
  - rewrite withdraw_money_unfold, _atomic_transaction_unfold. simpl.
    destruct (accounts self !! n) as [acc|] eqn:Hn; [|done].
    destruct (Qlt_bool (- a) 0 && Qlt_bool (balance acc + - a) 0); [done|]. simpl.
    intros k acc' Hk. simpl in Hk.
    apply lookup_insert_Some in Hk as [[<- <-]|[_ Hk]]; [simpl; by apply (Hinv n acc)|by apply Hinv].
  - rewrite deposit_money_unfold, _atomic_transaction_unfold. simpl.
    destruct (accounts self !! n) as [acc|] eqn:Hn; [|done].
    destruct (Qlt_bool a 0 && Qlt_bool (balance acc + a) 0); [done|]. simpl.
    intros k acc' Hk. simpl in Hk.
    apply lookup_insert_Some in Hk as [[<- <-]|[_ Hk]]; [simpl; by apply (Hinv n acc)|by apply Hinv].
Qed.

(** X4.  In every state a caller can bring about, each account is stored
    under its own account number; hence a successful [get_balance]
    answers with the account number it was asked for, and with the stored
    balance. *)
Theorem account_number_is_key settings self :
  reachable settings self →
  keys_match self ∧
  ∀ num resp, (get_balance num self).1 = Ok resp →
    BalanceResponse.account_number resp = num ∧
    balance <$> accounts self !! num = Some (BalanceResponse.balance resp).
Proof.
  intros Hr.
  assert (keys_match self) as Hinv.
  { induction Hr as [|c self Hr IH].
    - intros k a Hk. simpl in Hk. by rewrite lookup_empty in Hk.
    - by apply step_keys_match. }
  split; [exact Hinv|]. intros num resp. rewrite get_balance_unfold. simpl.
  destruct (accounts self !! num) as [a|] eqn:Ha; [|done]. simpl.
  intros [= <-]. simpl. split; [by apply Hinv|done].
Qed.

Lemma account_number_is_key_witness :
  keys_match two_accounts ∧
  ∀ num resp, (get_balance num two_accounts).1 = Ok resp →
    BalanceResponse.account_number resp = num ∧
    balance <$> accounts two_accounts !! num = Some (BalanceResponse.balance resp).
Proof.
  apply (account_number_is_key default_settings two_accounts).
  unfold two_accounts. apply reachable_run. constructor.
Defined.

(** ** Time stamps *)

Lemma timestamps_bounded_weaken t t' self :
  t <= t' → timestamps_bounded t self → timestamps_bounded t' self.
Proof. intros Hle Hinv k a Hk. destruct (Hinv k a Hk). lia. Qed.

Lemma step_timestamps settings c self t :
  timestamps_bounded t self →
  (∀ now, clock_reading c = Some now → t <= now) →
  timestamps_bounded (default t (clock_reading c)) (step settings c self).
Proof.
  unfold step. intros Hinv Hclock.
  destruct c as [u now b|n|n| |n a now|n a now]; simpl in *.
  - specialize (Hclock now eq_refl). rewrite create_account_unfold.
    destruct (Z.of_nat (size (accounts self)) >=? MAX_ACCOUNTS settings);
      [by eapply timestamps_bounded_weaken|].
    destruct (Qle_bool 0 b); [|by eapply timestamps_bounded_weaken]. simpl.
    intros k acc Hk. simpl in Hk.
    apply lookup_insert_Some in Hk as [[<- <-]|[_ Hk]]; simpl; [lia|].
    destruct (Hinv k acc Hk). lia.
  - rewrite get_balance_unfold. simpl. by destruct (accounts self !! n).
  - rewrite delete_account_unfold. destruct (accounts self !! n); [|done]. simpl.
    intros k acc Hk. simpl in Hk. apply lookup_delete_Some in Hk as [_ Hk]. exact (Hinv k acc Hk).
  - done.
  - specialize (Hclock now eq_refl).
    rewrite withdraw_money_unfold, _atomic_transaction_unfold. simpl.
    destruct (accounts self !! n) as [acc|] eqn:Hn; [|by eapply timestamps_bounded_weaken].
    destruct (Qlt_bool (- a) 0 && Qlt_bool (balance acc + - a) 0);
      [by eapply timestamps_bounded_weaken|]. simpl.
    intros k acc' Hk. simpl in Hk.
    apply lookup_insert_Some in Hk as [[<- <-]|[_ Hk]]; simpl.
    + destruct (Hinv n acc Hn). lia.
    + destruct (Hinv k acc' Hk). lia.
  - specialize (Hclock now eq_refl).
    rewrite deposit_money_unfold, _atomic_transaction_unfold. simpl.
    destruct (accounts self !! n) as [acc|] eqn:Hn; [|by eapply timestamps_bounded_weaken].
    destruct (Qlt_bool a 0 && Qlt_bool (balance acc + a) 0);
      [by eapply timestamps_bounded_weaken|]. simpl.
    intros k acc' Hk. simpl in Hk.
    apply lookup_insert_Some in Hk as [[<- <-]|[_ Hk]]; simpl.
    + destruct (Hinv n acc Hn). lia.
    + destruct (Hinv k acc' Hk). lia.
Qed.

Lemma run_timestamps settings cs : ∀ self t,
  timestamps_bounded t self →
  nondecreasing_from t (clock_readings cs) →
  ∃ t', timestamps_bounded t' (run settings cs self).
Proof.
  induction cs as [|c cs IH]; intros self t Hinv Hmono; simpl in *; [by exists t|].
  unfold clock_readings in Hmono. simpl in Hmono.
  pose proof (step_timestamps settings c self t Hinv) as Hstep.
  destruct (clock_reading c) as [now|] eqn:Hc; simpl in *.
  - destruct Hmono as [Hle Hmono].
    apply (IH _ now); [|done]. apply Hstep. by intros ? [= <-].
  - apply (IH _ t); [|done]. by apply Hstep.
Qed.

(** X5.  When the clock readings of a sequence of calls never go back,
    then in the ledger that the calls build from the empty one every
    account's [last_updated] is at or after its [created_at]. *)
Theorem created_before_last_updated settings cs num a :
  nondecreasing (clock_readings cs) →
  accounts (run settings cs AccountService_init) !! num = Some a →
  created_at a <= last_updated a.
Proof.
  intros Hmono Ha.
  assert (∀ t, timestamps_bounded t AccountService_init) as Hinit.
  { intros t k acc Hk. simpl in Hk. by rewrite lookup_empty in Hk. }
  assert (∃ t', timestamps_bounded t' (run settings cs AccountService_init)) as [t' Hb].
  { unfold nondecreasing in Hmono.
    destruct (clock_readings cs) as [|t0 rest] eqn:Hr.
    - apply (run_timestamps settings cs _ 0); [done|]. by rewrite Hr.
    - apply (run_timestamps settings cs _ t0); [done|]. rewrite Hr. simpl. split; [lia|done]. }
  by destruct (Hb num a Ha).
Qed.

Lemma created_before_last_updated_witness :
  created_at (mkAccount "a" 700%Q 1 6) <= last_updated (mkAccount "a" 700%Q 1 6).
Proof.
  apply (created_before_last_updated default_settings mixed_calls "a").
  - vm_compute. repeat split; discriminate.
  - vm_compute. reflexivity.
Defined.

(** ** Listing *)

(** X6.  [list_all_accounts] never raises and leaves the service object
    as it was; [total_accounts] is the number of entries and equals
    [get_account_count]; every account number occurs once; and the
    entries are exactly the stored accounts with their balance and time
    stamps. *)
Theorem list_all_accounts_consistent settings self :
  ∃ listing,
    list_all_accounts settings self = (Ok listing, self) ∧
    total_accounts listing = length (accounts_info listing) ∧
    total_accounts listing = get_account_count self ∧
    max_accounts listing = MAX_ACCOUNTS settings ∧
    NoDup (info_account_number <$> accounts_info listing) ∧
    ∀ info, info ∈ accounts_info listing ↔
            ∃ a, accounts self !! info_account_number info = Some a ∧
                 info = info_of (info_account_number info) a.
Proof.
  eexists. split; [reflexivity|]. simpl.
  split; [done|]. split; [|split; [done|split]].
  - unfold get_account_count. by rewrite length_fmap, length_map_to_list.
  - rewrite <- list_fmap_compose.
    rewrite (list_fmap_ext _ fst (map_to_list (accounts self))) by done.
    apply NoDup_fst_map_to_list.
  - intros info. rewrite list_elem_of_fmap. split.
    + intros [[k a] [-> Hin]]. simpl. apply elem_of_map_to_list in Hin. by exists a.
    + intros [a [Ha Hinfo]]. exists (info_account_number info, a). split; [done|].
      by apply elem_of_map_to_list.
Qed.

(** ** Transactions *)

(** X7.  On an existing account a deposit of an amount that is not
    negative always succeeds, whatever the balance: the balance stored
    and reported is the old one plus the amount, the creation time is
    kept and the update time is the clock reading of the call. *)
Theorem deposit_money_never_insufficient num (a : Q) now self acc :
  accounts self !! num = Some acc → (0 <= a)%Q →
  (deposit_money num a now self).1 =
    Ok (TransactionResponse.mk num (balance acc + a)%Q (Qabs a) "deposit" now) ∧
  accounts (deposit_money num a now self).2 =
    <[num := mkAccount (account_number acc) (balance acc + a)%Q (created_at acc) now]>
      (accounts self).
Proof.
  intros Hacc Ha. rewrite deposit_money_unfold, _atomic_transaction_unfold. simpl.
  rewrite Hacc.
  assert (Qlt_bool a 0 = false) as -> by (by apply Qlt_bool_false).
  done.
Qed.

Lemma deposit_money_never_insufficient_witness :
  (deposit_money "a" 250%Q 2 one_account).1 =
    Ok (TransactionResponse.mk "a" (500 + 250)%Q (Qabs 250) "deposit" 2) ∧
  accounts (deposit_money "a" 250%Q 2 one_account).2 =
    <[ "a" := mkAccount "a" (500 + 250)%Q 1 2 ]> (accounts one_account).
Proof.
  apply (deposit_money_never_insufficient "a" 250%Q 2 one_account (mkAccount "a" 500%Q 1 1)).
  - vm_compute. reflexivity.
  - vm_compute. discriminate.
Defined.



(** ** Round trips *)

Lemma service_eta (self : AccountService) :
  mkService (accounts self) (global_lock self) (account_locks self) = self.
Proof. by destruct self. Qed.

Lemma delete_defaultdict_getitem key (d : gmap string RLock) :
  delete key (defaultdict_getitem key d).2 = delete key d.
Proof.
  unfold defaultdict_getitem. destruct (d !! key) eqn:E; simpl; [done|].
  by rewrite delete_insert_eq.
Qed.

(** X9.  Creating an account under an identifier that has no account and
    deleting it again gives back the account table as it was; the lock
    table is as it was except that it has no entry for the identifier, so
    the whole service object is as before when it had no such lock entry. *)
Theorem create_then_delete settings uuid4 now b self :
  accounts self !! uuid4 = None →
  succeeds (create_account settings uuid4 now b self).1 →
  let r := delete_account uuid4 (create_account settings uuid4 now b self).2 in
  r.1 = Ok tt ∧
  accounts r.2 = accounts self ∧
  account_locks r.2 = delete uuid4 (account_locks self) ∧
  (account_locks self !! uuid4 = None → r.2 = self).
Proof.
  intros Hnone Hok r. subst r. revert Hok.
  rewrite delete_account_unfold, create_account_unfold.
  destruct (Z.of_nat (size (accounts self)) >=? MAX_ACCOUNTS settings); [done|].
  destruct (Qle_bool 0 b); [|done]. simpl. intros _.
  rewrite lookup_insert_eq. simpl.
  rewrite delete_insert_eq, delete_defaultdict_getitem.
  rewrite (delete_id (accounts self)) by done.
  repeat split; try done.
  intros Hl. rewrite (delete_id (account_locks self)) by done. apply service_eta.
Qed.

Lemma create_then_delete_witness :
  let r := delete_account "b" (create_account default_settings "b" 2 70%Q one_account).2 in
  r.1 = Ok tt ∧
  accounts r.2 = accounts one_account ∧
  account_locks r.2 = delete "b" (account_locks one_account) ∧
  (account_locks one_account !! "b" = None → r.2 = one_account).
Proof.
  apply (create_then_delete default_settings "b" 2 70%Q one_account).
  - vm_compute. reflexivity.
  - vm_compute. exact I.
Defined.



(** ** The routes *)






(** X14.  The routes for the balance, for deletion and for the listing
    hand on what the service returns: their 500 branch is never taken,
    the balance and deletion routes raise nothing but the 404 (exactly
    when the id has no account), and the listing route always succeeds. *)
Theorem routes_pass_service_outcome settings num service :
  AccountsRouter.get_balance num service = get_balance num service ∧
  AccountsRouter.delete_account num service = delete_account num service ∧
  AccountsRouter.list_accounts settings service = list_all_accounts settings service ∧
  (∀ e, (AccountsRouter.get_balance num service).1 = Raise e ∨
        (AccountsRouter.delete_account num service).1 = Raise e →
        e = HTTPException HTTP_404_NOT_FOUND "Account not found" ∧
        accounts service !! num = None) ∧
  succeeds (AccountsRouter.list_accounts settings service).1.
Proof.
  unfold AccountsRouter.get_balance, AccountsRouter.delete_account,
    AccountsRouter.list_accounts, reraise_as_500.
  rewrite get_balance_unfold, delete_account_unfold. simpl.
  destruct (accounts service !! num) as [a|] eqn:Ha; simpl.
  - split; [done|]. split; [done|]. split; [done|]. split; [|done].
    by intros e [?|?].
  - split; [done|]. split; [done|]. split; [done|]. split; [|done].
    intros e [He|He]; split; congruence.
Qed.

Lemma routes_pass_service_outcome_witness :
  AccountsRouter.get_balance "ghost" one_account = get_balance "ghost" one_account ∧
  AccountsRouter.delete_account "ghost" one_account = delete_account "ghost" one_account ∧
  AccountsRouter.list_accounts default_settings one_account
    = list_all_accounts default_settings one_account ∧
  (∀ e, (AccountsRouter.get_balance "ghost" one_account).1 = Raise e ∨
        (AccountsRouter.delete_account "ghost" one_account).1 = Raise e →
        e = HTTPException HTTP_404_NOT_FOUND "Account not found" ∧
        accounts one_account !! "ghost" = None) ∧
  succeeds (AccountsRouter.list_accounts default_settings one_account).1.
Proof.
  exact (routes_pass_service_outcome default_settings "ghost" one_account).
Defined.

(** ** Calls on other accounts *)

Lemma step_frame settings c k self :
  target c ≠ Some k → accounts (step settings c self) !! k = accounts self !! k.
Proof.
  intros Hne. destruct (is_account_op c) eqn:Hop; [by apply account_op_frame|].
  unfold step. destruct c as [u t b|n|n| |n a t|n a t]; try done; simpl in *.
  - rewrite create_account_unfold.
    destruct (Z.of_nat (size (accounts self)) >=? MAX_ACCOUNTS settings); [done|].
    destruct (Qle_bool 0 b); [|done]. simpl. apply lookup_insert_ne. congruence.
  - rewrite delete_account_unfold. destruct (accounts self !! n); [|done]. simpl.
    apply lookup_delete_ne. congruence.
Qed.

(** X15.  No call touches an account it does not name: after any call,
    and after any sequence of calls, on other ids (creations and deletions
    included, and listings), the entry stored for an id, or its absence,
    is as before. *)
Theorem unnamed_account_untouched settings cs k self :
  Forall (λ c, target c ≠ Some k) cs →
  accounts (run settings cs self) !! k = accounts self !! k.
Proof.
  revert self. induction cs as [|c cs IH]; intros self Hcs; simpl; [done|].
  apply Forall_cons in Hcs as [Hc Hcs]. rewrite IH by done. by apply step_frame.
Qed.

Lemma unnamed_account_untouched_witness :
  accounts (run default_settings calls_after_delete one_account) !! "c"
  = accounts one_account !! "c".
Proof.
  apply (unnamed_account_untouched default_settings calls_after_delete "c" one_account).
  unfold calls_after_delete. repeat constructor; simpl; discriminate.
Defined.

(** ** Counting accounts *)

(** X16.  [get_account_count] goes up by one on a successful creation
    under an identifier that has no account, stays the same when the
    identifier already has one (that account is replaced by the new
    one), goes down by one on a successful deletion, and is unchanged by
    every other call and by every call that raises. *)
Theorem account_count_changes settings self :
  (∀ uuid4 now b,
     succeeds (create_account settings uuid4 now b self).1 →
     let after := (create_account settings uuid4 now b self).2 in
     accounts after !! uuid4 = Some (mkAccount uuid4 b now now) ∧
     get_account_count after =
       match accounts self !! uuid4 with
       | Some _ => get_account_count self
       | None => S (get_account_count self)
       end) ∧
  (∀ num,
     succeeds (delete_account num self).1 →
     S (get_account_count (delete_account num self).2) = get_account_count self) ∧
  (∀ c, (is_account_op c = true ∨ c = ListAllAccounts ∨ ¬ succeeds (exec settings c self).1) →
        get_account_count (step settings c self) = get_account_count self).
Proof.
  unfold get_account_count. split; [|split].
  - intros uuid4 now b. rewrite create_account_unfold.
    destruct (Z.of_nat (size (accounts self)) >=? MAX_ACCOUNTS settings); [done|].
    destruct (Qle_bool 0 b); [|done]. simpl. intros _. rewrite lookup_insert_eq.
    split; [done|]. destruct (accounts self !! uuid4) eqn:Hu.
    + by rewrite map_size_insert_Some.
    + by rewrite map_size_insert_None.
  - intros num. rewrite delete_account_unfold.
    destruct (accounts self !! num) eqn:Hn; [|done]. simpl. intros _.
    rewrite map_size_delete, Hn.
    assert (size (accounts self) ≠ 0%nat); [|lia].
    intros H0. apply map_size_empty_inv in H0. rewrite H0 in Hn.
    by rewrite lookup_empty in Hn.
  - intros c Hc. unfold step. destruct c as [u t b|n|n| |n a t|n a t]; simpl in *.
    + destruct Hc as [?|[?|Hc]]; try done. revert Hc. rewrite create_account_unfold.
      destruct (Z.of_nat (size (accounts self)) >=? MAX_ACCOUNTS settings); [done|].
      destruct (Qle_bool 0 b); [|done]. simpl. by intros [].
    + rewrite get_balance_unfold. simpl. by destruct (accounts self !! n).
    + destruct Hc as [?|[?|Hc]]; try done. revert Hc. rewrite delete_account_unfold.
      destruct (accounts self !! n); [|done]. simpl. by intros [].
    + done.
    + rewrite withdraw_money_unfold, _atomic_transaction_unfold. simpl.
      destruct (accounts self !! n) as [acc|] eqn:Hn; [|done].
      destruct (Qlt_bool (- a) 0 && Qlt_bool (balance acc + - a) 0); [done|]. simpl.
      by rewrite map_size_insert_Some.
    + rewrite deposit_money_unfold, _atomic_transaction_unfold. simpl.
      destruct (accounts self !! n) as [acc|] eqn:Hn; [|done].
      destruct (Qlt_bool a 0 && Qlt_bool (balance acc + a) 0); [done|]. simpl.
      by rewrite map_size_insert_Some.
Qed.

Lemma account_count_changes_witness :
  let after := (create_account default_settings "b" 2 70%Q one_account).2 in
  (accounts after !! "b" = Some (mkAccount "b" 70%Q 2 2) ∧
   get_account_count after =
     match accounts one_account !! "b" with
     | Some _ => get_account_count one_account
     | None => S (get_account_count one_account)
     end) ∧
  S (get_account_count (delete_account "a" one_account).2) = get_account_count one_account ∧
  get_account_count (step default_settings (DepositMoney "a" 5%Q 2) one_account)
  = get_account_count one_account.
Proof.
  destruct (account_count_changes default_settings one_account) as (Hc & Hd & Ho).
  split; [|split].
  - apply (Hc "b" 2 70%Q). vm_compute. exact I.
  - apply (Hd "a"). vm_compute. exact I.
  - apply (Ho (DepositMoney "a" 5%Q 2)). left. reflexivity.
Defined.

(** ** Lock entries without an account *)

Lemma defaultdict_getitem_keeps key k (d : gmap string RLock) :
  is_Some (d !! k) → is_Some ((defaultdict_getitem key d).2 !! k).
Proof.
  intros Hk. unfold defaultdict_getitem. destruct (d !! key) eqn:E; simpl; [done|].
  destruct (decide (key = k)) as [->|Hne].
  - rewrite lookup_insert_eq. eauto.
  - by rewrite lookup_insert_ne.
Qed.

Lemma step_keeps_stale_lock settings c k self :
  (∀ now b, c ≠ CreateAccount k now b) →
  accounts self !! k = None → is_Some (account_locks self !! k) →
  is_Some (account_locks (step settings c self) !! k).
Proof.
  intros Hc Habs Hlock. unfold step.
  destruct c as [u t b|n|n| |n a t|n a t]; simpl.
  - rewrite create_account_unfold.
    destruct (Z.of_nat (size (accounts self)) >=? MAX_ACCOUNTS settings); [done|].
    destruct (Qle_bool 0 b); [|done]. simpl. by apply defaultdict_getitem_keeps.
  - rewrite get_balance_unfold. simpl.
    destruct (accounts self !! n); simpl; by apply defaultdict_getitem_keeps.
  - rewrite delete_account_unfold. destruct (accounts self !! n) eqn:Hn; [|done]. simpl.
    rewrite lookup_delete_ne; [done|]. intros ->. congruence.
  - done.
  - rewrite withdraw_money_unfold, _atomic_transaction_unfold. simpl.
    destruct (accounts self !! n) as [acc|]; simpl;
      [destruct (Qlt_bool (- a) 0 && Qlt_bool (balance acc + - a) 0); simpl|];
      by apply defaultdict_getitem_keeps.
  - rewrite deposit_money_unfold, _atomic_transaction_unfold. simpl.
    destruct (accounts self !! n) as [acc|]; simpl;
      [destruct (Qlt_bool a 0 && Qlt_bool (balance acc + a) 0); simpl|];
      by apply defaultdict_getitem_keeps.
Qed.

(** X17.  A balance query, deposit or withdrawal on an id always leaves
    a lock entry for that id, also when it raises the 404.  A lock entry
    for an id that has no account is never removed again: as long as no
    account is created under that id, every later call leaves the id
    without an account and with its lock entry ([delete_account] raises
    the 404 before it reaches the lock table). *)
Theorem stale_lock_entry_stays settings cs k self :
  (∀ c, is_account_op c = true → target c = Some k →
        is_Some (account_locks (step settings c self) !! k)) ∧
  (accounts self !! k = None → is_Some (account_locks self !! k) →
   Forall (λ c, ∀ now b, c ≠ CreateAccount k now b) cs →
   accounts (run settings cs self) !! k = None ∧
   is_Some (account_locks (run settings cs self) !! k)).
Proof.
  split.
  - intros c Hop Ht. unfold step.
    destruct c as [u t b|n|n| |n a t|n a t]; try done; simpl in *; injection Ht as ->.
    + rewrite get_balance_unfold. simpl.
      destruct (accounts self !! k); simpl; apply defaultdict_getitem_present.
    + rewrite withdraw_money_unfold, _atomic_transaction_unfold. simpl.
      destruct (accounts self !! k) as [acc|]; simpl;
        [destruct (Qlt_bool (- a) 0 && Qlt_bool (balance acc + - a) 0); simpl|];
        apply defaultdict_getitem_present.
    + rewrite deposit_money_unfold, _atomic_transaction_unfold. simpl.
      destruct (accounts self !! k) as [acc|]; simpl;
        [destruct (Qlt_bool a 0 && Qlt_bool (balance acc + a) 0); simpl|];
        apply defaultdict_getitem_present.
  - revert self. induction cs as [|c cs IH]; intros self Habs Hlock Hcs; simpl; [done|].
    apply Forall_cons in Hcs as [Hc Hcs]. apply IH; [| |done].
    + by apply step_keeps_absent.
    + by apply step_keeps_stale_lock.
Qed.

Lemma stale_lock_entry_stays_witness :
  let s := step default_settings (GetBalance "ghost") one_account in
  accounts (run default_settings calls_after_delete s) !! "ghost" = None ∧
  is_Some (account_locks (run default_settings calls_after_delete s) !! "ghost").
Proof.
  apply (proj2 (stale_lock_entry_stays default_settings calls_after_delete "ghost"
                  (step default_settings (GetBalance "ghost") one_account))).
  - vm_compute. reflexivity.
  - vm_compute. eauto.
  - unfold calls_after_delete. repeat constructor; intros now b; discriminate.
Defined.

(** ** Amounts of the wrong sign, at the service *)

(** X18.  The service does not look at the sign of the amount: a deposit
    of [- a] does to the ledger exactly what a withdrawal of [a] does, and
    the two calls raise the same exception or report the same new
    balance, amount and time stamp; only the transaction type in the
    response differs. *)
Theorem deposit_of_negative_is_withdrawal num (a : Q) now self :
  (deposit_money num (- a)%Q now self).2 = (withdraw_money num a now self).2 ∧
  match (deposit_money num (- a)%Q now self).1, (withdraw_money num a now self).1 with
  | Ok d, Ok w =>
      TransactionResponse.new_balance d = TransactionResponse.new_balance w ∧
      TransactionResponse.transaction_amount d = TransactionResponse.transaction_amount w ∧
      TransactionResponse.timestamp d = TransactionResponse.timestamp w ∧
      TransactionResponse.transaction_type d = "deposit" ∧
      TransactionResponse.transaction_type w = "withdrawal"
  | Raise e1, Raise e2 => e1 = e2
  | _, _ => False
  end.
Proof.
  rewrite deposit_money_unfold, withdraw_money_unfold, !_atomic_transaction_unfold. simpl.
  destruct (accounts self !! num) as [acc|]; [|done].
  by destruct (Qlt_bool (- a) 0 && Qlt_bool (balance acc + - a) 0).
Qed.

(** ** The listing and the balance query *)

Lemma reachable_keys_match settings self :
  reachable settings self → keys_match self.
Proof.
  induction 1 as [|c self Hr IH].
  - intros k a Hk. simpl in Hk. by rewrite lookup_empty in Hk.
  - by apply step_keys_match.
Qed.

(** X19.  In every state a caller can bring about, the listing and the
    balance query agree: the listing has an entry with account number
    [num] and balance [bal] exactly when [get_balance num] returns
    [num] with balance [bal]. *)
Theorem listing_agrees_with_get_balance settings self listing num (bal : Q) :
  reachable settings self →
  (list_all_accounts settings self).1 = Ok listing →
  (∃ info, info ∈ accounts_info listing ∧
           info_account_number info = num ∧ info_balance info = bal) ↔
  (get_balance num self).1 = Ok (BalanceResponse.mk num bal).
Proof.
  intros Hr [= <-]. simpl. rewrite get_balance_unfold. simpl. split.
  - intros (info & Hin & <- & <-). apply list_elem_of_fmap in Hin as [[k a] [-> Hin]].
    apply elem_of_map_to_list in Hin. simpl. rewrite Hin. simpl.
    by rewrite (reachable_keys_match settings self Hr k a Hin).
  - destruct (accounts self !! num) as [a|] eqn:Ha; [|done]. simpl. intros [= Hn <-].
    exists (mkInfo num (balance a) (created_at a) (last_updated a)).
    split; [|done]. apply list_elem_of_fmap. exists (num, a). split; [done|].
    by apply elem_of_map_to_list.
Qed.

Lemma listing_agrees_with_get_balance_witness :
  (∃ info, info ∈ accounts_info (mkListing 2 1000
                      ((λ kv : string * Account,
                          mkInfo kv.1 (balance kv.2) (created_at kv.2) (last_updated kv.2))
                         <$> map_to_list (accounts two_accounts))) ∧
           info_account_number info = "b" ∧ info_balance info = 70%Q) ↔
  (get_balance "b" two_accounts).1 = Ok (BalanceResponse.mk "b" 70%Q).
Proof.
  apply (listing_agrees_with_get_balance default_settings two_accounts).
  - unfold two_accounts. apply reachable_run. constructor.
  - vm_compute. reflexivity.
Defined.
